(** * RStudio session modules: Zotero collections and the default preferences layer

    A shallow embedding of
    - [src/cpp/session/modules/zotero/ZoteroCollections.hpp]: the collection
      spec and collection value types, the collection source interface and
      the two entry points [getLibrary] and [getCollections];
    - [src/cpp/session/modules/prefs/UserPrefsDefaultLayer.cpp]: [readPrefs]
      and [validatePrefs] of the default preferences layer.

    C++ [int] is read as [Z] (no arithmetic is performed on versions, so no
    wrap-around can occur), [std::string] as [string], [std::vector] as
    [list], a struct as a record, inheritance as an embedded base record
    with a coercion. *)

From Stdlib Require Import String List ZArith Bool Arith Lia Permutation.
From ExtLib Require Import Structures.Monad Structures.MonadState Data.Monads.StateMonad.
Import ListNotations.
Import MonadNotation.

Local Open Scope string_scope.
Local Open Scope monad_scope.

(* ===================================================================== *)
(** ** core::Error *)
(* ===================================================================== *)

Module core.

(** Modelled from the spec: [core::Error] is only forward-declared in the
    header and its class is not among the sources.  The error taxonomy is
    the one of section 7 of the specification: transport or backend
    failure, partial-name failure, contract violation (version regression,
    missing name) and preferences-layer failure. *)
Inductive ErrorKind : Type :=
| TransportFailure
| PartialNameFailure
| ContractViolation
| PreferencesFailure.

(** An [Error] is either [Success()] or a failure with its kind and a
    human-readable message. *)
Inductive Error : Type :=
| Success
| Failure (kind : ErrorKind) (message : string).

(** [Error::operator bool]: true exactly for a non-success error. *)
Definition isError (e : Error) : bool :=
  match e with
  | Success => false
  | Failure _ _ => true
  end.

End core.

(* ===================================================================== *)
(** ** core::json *)
(* ===================================================================== *)

Module json.

#[local] Set Warnings "-register-all".

(** Modelled from the spec: [shared_core/json/Json.hpp] is not among the
    sources.  Item records are opaque structured data; an array is an
    ordered sequence of them. *)
Inductive Value : Type :=
| JNull
| JBool (b : bool)
| JNumber (z : Z)
| JString (s : string)
| JArray (elements : list Value)
| JObject (members : list (string * Value)).

Definition Array : Type := list Value.

(** [json::Array()]: the default-constructed array has no element. *)
Definition emptyArray : Array := [].

End json.

(* ===================================================================== *)
(** ** rstudio::session::modules::zotero::collections *)
(* ===================================================================== *)

Module zotero.

(** [std::string::empty()]. *)
Definition string_empty (s : string) : bool :=
  match s with
  | EmptyString => true
  | String _ _ => false
  end.

(** [struct ZoteroCollectionSpec { std::string name; int version; }]. *)
Record ZoteroCollectionSpec : Type := mkSpec {
  name : string;
  version : Z
}.

Definition ZoteroCollectionSpecs : Type := list ZoteroCollectionSpec.

(** [bool empty() const { return name.empty(); }] *)
Definition empty (s : ZoteroCollectionSpec) : bool := string_empty (name s).

(** Name equality of two specs: [a.name == b.name]. *)
Definition sameName (a b : ZoteroCollectionSpec) : bool :=
  String.eqb (name a) (name b).

(** [struct ZoteroCollection : ZoteroCollectionSpec { core::json::Array items; }] *)
Record ZoteroCollection : Type := mkCollection {
  spec :> ZoteroCollectionSpec;
  items : json.Array
}.

Definition ZoteroCollections : Type := list ZoteroCollection.

(** The three ways [ZoteroCollectionSpec(const std::string& name = "",
    int version = kNoVersion)] can be called. *)
Inductive SpecInit : Type :=
| SpecDefault
| SpecNamed (name : string)
| SpecVersioned (name : string) (version : Z).

(** The three constructors of [ZoteroCollection]. *)
Inductive CollectionInit : Type :=
| CollectionDefault
| CollectionNamed (colName : string)
| CollectionOfSpec (spec : ZoteroCollectionSpec).

(* --------------------------------------------------------------------- *)
(** *** Handlers and collection sources *)
(* --------------------------------------------------------------------- *)

(** [typedef boost::function<void(core::Error, ZoteroCollections, std::string)>
      ZoteroCollectionsHandler;]
    What a handler does with its arguments belongs to the caller, so its
    effect is an abstract type [R]. *)
Definition ZoteroCollectionsHandler (R : Type) : Type :=
  core.Error -> ZoteroCollections -> string -> R.

(** The arguments of one invocation of a handler. *)
Record HandlerArgs : Type := mkArgs {
  arg_error : core.Error;
  arg_collections : ZoteroCollections;
  arg_warning : string
}.

Definition invoke {R : Type} (handler : ZoteroCollectionsHandler R)
    (a : HandlerArgs) : R :=
  handler (arg_error a) (arg_collections a) (arg_warning a).

(** The handler that records the arguments it is invoked with. *)
Definition recordArgs : ZoteroCollectionsHandler HandlerArgs := mkArgs.

(** [struct ZoteroCollectionSource]: the two functions a source implements.
    Each takes a handler and returns nothing, so it is denoted by the
    invocations it makes of that handler, in order; nothing in the type
    says how many there are. *)
Record ZoteroCollectionSource : Type := mkSource {
  source_getLibrary :
    string -> ZoteroCollectionSpec -> list HandlerArgs;
  source_getCollections :
    string -> list string -> ZoteroCollectionSpecs -> list HandlerArgs
}.

(** The currently configured source, with the string it is called with
    (the library identifier of section 4.1 of the specification). *)
Record Connection : Type := mkConnection {
  libraryId : string;
  source : ZoteroCollectionSource
}.

(** What was sent to the source. *)
Inductive Request : Type :=
| FetchLibrary (libraryId : string) (cacheSpec : ZoteroCollectionSpec)
| FetchCollections (libraryId : string) (names : list string)
    (cacheSpecs : ZoteroCollectionSpecs).

(** One call of an entry point, after section 4.2 of the specification
    (Idle, Dispatched, Completed): the request dispatched to the source and
    the effects of the invocations of the caller's handler, in order. *)
Record Call (R : Type) : Type := mkCall {
  dispatched : Request;
  completed : list R
}.

Arguments mkCall {R} _ _.
Arguments dispatched {R} _.
Arguments completed {R} _.

(* --------------------------------------------------------------------- *)
(** *** Sample libraries and sources *)
(* --------------------------------------------------------------------- *)

(** The sentinel at the value the specification suggests. *)
Definition noVersion : Z := (-1)%Z.

Definition refs : ZoteroCollection :=
  mkCollection (mkSpec "Refs" 3) [json.JObject [("id", json.JString "knuth84")]].

Definition drafts : ZoteroCollection :=
  mkCollection (mkSpec "Drafts" 1) [].

(** A source over a fixed library.  It completes every request with one
    invocation of the handler; [getCollections] answers the stored
    collections whose names were requested and says nothing of the others. *)
Definition storedSource (stored : ZoteroCollections) : ZoteroCollectionSource :=
  mkSource
    (fun _ _ => [mkArgs core.Success stored ""])
    (fun _ names _ =>
       [mkArgs core.Success
          (filter (fun c : ZoteroCollection => existsb (String.eqb (name c)) names)
             stored)
          ""]).

Definition unreachable : core.Error :=
  core.Failure core.TransportFailure "source unreachable".

(** A source whose transport fails after part of the data was read. *)
Definition failingSource (partial : ZoteroCollections) : ZoteroCollectionSource :=
  mkSource
    (fun _ _ => [mkArgs unreachable partial "incomplete"])
    (fun _ _ _ => [mkArgs unreachable partial "incomplete"]).

Definition desktop : Connection :=
  mkConnection "local" (storedSource [drafts; refs]).

Definition offline : Connection :=
  mkConnection "local" (failingSource [drafts]).

Section Collections.

(** [extern const int kNoVersion;] is defined outside the header: its value
    is a parameter of the development. *)
Variable kNoVersion : Z.

(** [ZoteroCollectionSpec(const std::string& name = "", int version = kNoVersion)
      : name(name), version(version) {}] *)
Definition newSpec (init : SpecInit) : ZoteroCollectionSpec :=
  match init with
  | SpecDefault => mkSpec "" kNoVersion
  | SpecNamed name => mkSpec name kNoVersion
  | SpecVersioned name version => mkSpec name version
  end.

(** [ZoteroCollection() : ZoteroCollectionSpec("", kNoVersion) {}]
    [explicit ZoteroCollection(const std::string& colName)
       : ZoteroCollectionSpec(colName, kNoVersion) {}]
    [explicit ZoteroCollection(const ZoteroCollectionSpec& spec)
       : ZoteroCollectionSpec(spec.name, spec.version) {}]
    In each of them [items] is default-constructed. *)
Definition newCollection (init : CollectionInit) : ZoteroCollection :=
  match init with
  | CollectionDefault =>
      mkCollection (newSpec (SpecVersioned "" kNoVersion)) json.emptyArray
  | CollectionNamed colName =>
      mkCollection (newSpec (SpecVersioned colName kNoVersion)) json.emptyArray
  | CollectionOfSpec s =>
      mkCollection (newSpec (SpecVersioned (name s) (version s))) json.emptyArray
  end.

(* --------------------------------------------------------------------- *)
(** *** The entry points *)
(* --------------------------------------------------------------------- *)

(** Modelled from the spec: deduplication of the requested names "by name,
    insertion order preserved" (section 4.2, [getCollections], step 2):
    the first occurrence of every name is kept. *)
Fixpoint dedupNames (names : list string) : list string :=
  match names with
  | [] => []
  | n :: rest => n :: filter (fun m => negb (String.eqb m n)) (dedupNames rest)
  end.

(** Position of the first occurrence of [n] in [names] (the length of
    [names] when there is none). *)
Fixpoint indexOf (n : string) (names : list string) : nat :=
  match names with
  | [] => 0
  | m :: rest => if String.eqb m n then 0 else S (indexOf n rest)
  end.

(** Modelled from the spec: the version a set of cache specs holds for a
    name; "a name with no corresponding entry in cacheSpecs is treated as
    kNoVersion" (sections 4.1 and 4.2). *)
Definition cachedVersion (cacheSpecs : ZoteroCollectionSpecs) (n : string) : Z :=
  match find (fun s => String.eqb (name s) n) cacheSpecs with
  | Some s => version s
  | None => kNoVersion
  end.

(** The names of the collections of a result, in order. *)
Definition collectionNames (result : ZoteroCollections) : list string :=
  map (fun c : ZoteroCollection => name c) result.

(** Number of collections of a result that carry the name [n]. *)
Definition countByName (n : string) (result : ZoteroCollections) : nat :=
  length (filter (fun c : ZoteroCollection => String.eqb (name c) n) result).

(** Modelled from the spec: the check of section 4.2, [getCollections],
    step 4, with the completeness property of section 8: a successful
    result holds exactly one Collection per requested name, and no
    Collection for a name that was not requested. *)
Definition exactlyOnePerName (requested : list string)
    (result : ZoteroCollections) : bool :=
  forallb (fun n => Nat.eqb (countByName n result) 1) requested
  && forallb (fun c : ZoteroCollection => existsb (String.eqb (name c)) requested)
       result.

(** Modelled from the spec: the error that surfaces a contract violation of
    the source (section 7). *)
Definition contractViolation : core.Error :=
  core.Failure core.ContractViolation
    "the source did not return exactly one collection per requested name".

(** Modelled from the spec: what [getLibrary] does with an outcome of the
    source (section 4.2, steps 3 and 4): on success the collections and
    the warning are passed on unmodified, on failure the error is passed
    with no collection and an empty warning. *)
Definition libraryCompletion {R : Type} (handler : ZoteroCollectionsHandler R)
    : ZoteroCollectionsHandler R :=
  fun error collections warning =>
    if core.isError error then handler error [] ""
    else handler core.Success collections warning.

(** Modelled from the spec: what [getCollections] does with an outcome of
    the source (section 4.2, steps 4 and 5): a failure is propagated with
    an empty result set; a successful result is checked against the
    requested names and a violation is an error for the whole call. *)
Definition collectionsCompletion {R : Type} (requested : list string)
    (handler : ZoteroCollectionsHandler R) : ZoteroCollectionsHandler R :=
  fun error collections warning =>
    if core.isError error then handler error [] ""
    else if exactlyOnePerName requested collections
         then handler core.Success collections warning
         else handler contractViolation [] "".

(** Modelled from the spec: [void getLibrary(ZoteroCollectionSpec cacheSpec,
    bool useCache, ZoteroCollectionsHandler handler)] is only declared in
    the header; section 4.2 of the specification gives its steps. *)
Definition getLibrary {R : Type} (conn : Connection)
    (cacheSpec : ZoteroCollectionSpec) (useCache : bool)
    (handler : ZoteroCollectionsHandler R) : Call R :=
  (* 1. without the cache the version is rewritten to kNoVersion *)
  let cacheSpec :=
    if useCache then cacheSpec else mkSpec (name cacheSpec) kNoVersion in
  (* 2. dispatch to the configured source; 3. and 4. on completion *)
  mkCall (FetchLibrary (libraryId conn) cacheSpec)
         (map (invoke (libraryCompletion handler))
              (source_getLibrary (source conn) (libraryId conn) cacheSpec)).

(** Modelled from the spec: [void getCollections(std::vector<std::string>
    collections, ZoteroCollectionSpecs cacheSpecs, bool useCache,
    ZoteroCollectionsHandler handler)] is only declared in the header;
    section 4.2 of the specification gives its steps. *)
Definition getCollections {R : Type} (conn : Connection)
    (collections : list string) (cacheSpecs : ZoteroCollectionSpecs)
    (useCache : bool) (handler : ZoteroCollectionsHandler R) : Call R :=
  (* 1. without the cache all incoming cache specs are cleared *)
  let cacheSpecs := if useCache then cacheSpecs else [] in
  (* 2. the names are deduplicated; each one goes out with the version the
        cache specs hold for it, kNoVersion when they hold none *)
  let names := dedupNames collections in
  let cacheSpecs := map (fun n => mkSpec n (cachedVersion cacheSpecs n)) names in
  (* 3. dispatch to the configured source; 4. and 5. on completion *)
  mkCall (FetchCollections (libraryId conn) names cacheSpecs)
         (map (invoke (collectionsCompletion names handler))
              (source_getCollections (source conn) (libraryId conn)
                 names cacheSpecs)).

(* --------------------------------------------------------------------- *)
(** *** The value types *)
(* --------------------------------------------------------------------- *)

Lemma string_empty_spec (s : string) : string_empty s = true <-> s = "".
Proof.
  destruct s as [|c s]; simpl; split; intros H; try reflexivity; discriminate H.
Qed.

Lemma string_empty_false (s : string) : string_empty s = false <-> s <> "".
Proof.
  destruct s as [|c s]; simpl; split; intros H; try discriminate; try reflexivity.
  exfalso; apply H; reflexivity.
Qed.

(** C7.  A spec is the null object ("no such collection") exactly when its
    name is the empty string: [empty] answers true if and only if [name] is
    empty; and a spec with an empty name is never equal by name to a real
    collection, that is to a spec whose [empty] is false. *)
Theorem empty_iff_no_collection (s : ZoteroCollectionSpec) :
  (empty s = true <-> name s = "") /\
  (empty s = false <-> name s <> "") /\
  (forall c : ZoteroCollectionSpec,
      empty s = true -> empty c = false ->
      sameName s c = false /\ sameName c s = false).
Proof.
  unfold empty. split; [apply string_empty_spec|].
  split; [apply string_empty_false|].
  intros c Hs Hc. unfold sameName.
  apply string_empty_spec in Hs. apply string_empty_false in Hc.
  rewrite Hs. split; apply String.eqb_neq; congruence.
Qed.

(** C9.  A collection constructed from a spec carries the spec's name and
    version unchanged (its base part is the spec itself) and starts with an
    empty [items] array. *)
Theorem collection_of_spec_preserves_spec (s : ZoteroCollectionSpec) :
  name (newCollection (CollectionOfSpec s)) = name s /\
  version (newCollection (CollectionOfSpec s)) = version s /\
  spec (newCollection (CollectionOfSpec s)) = s /\
  items (newCollection (CollectionOfSpec s)) = [].
Proof.
  destruct s as [n v]. simpl. repeat split.
Qed.

(** C10.  Without an explicit version every constructor stores
    [kNoVersion]: the spec constructed with no argument or with a name
    alone, the default-constructed collection and the collection constructed
    from a name alone; the default-constructed spec moreover has the empty
    name, so it is the null object. *)
Theorem constructors_default_to_kNoVersion :
  version (newSpec SpecDefault) = kNoVersion /\
  (forall n, version (newSpec (SpecNamed n)) = kNoVersion) /\
  version (newCollection CollectionDefault) = kNoVersion /\
  (forall n, version (newCollection (CollectionNamed n)) = kNoVersion) /\
  name (newSpec SpecDefault) = "" /\
  empty (newSpec SpecDefault) = true.
Proof.
  repeat split.
Qed.

(* --------------------------------------------------------------------- *)
(** *** Deduplication of the requested names *)
(* --------------------------------------------------------------------- *)

Lemma filter_id {A : Type} (f : A -> bool) (l : list A) :
  (forall x, In x l -> f x = true) -> filter f l = l.
Proof.
  induction l as [|x l IH]; intros H; simpl; [reflexivity|].
  rewrite (H x (or_introl eq_refl)). f_equal. apply IH.
  intros y Hy. apply H. right. exact Hy.
Qed.

Lemma In_dedupNames (n : string) (names : list string) :
  In n (dedupNames names) <-> In n names.
Proof.
  induction names as [|x names IH]; simpl; [tauto|].
  rewrite filter_In, IH, negb_true_iff, String.eqb_neq.
  destruct (String.eqb_spec x n) as [->|Hx]; [tauto|].
  split; [tauto|]. intros [H|H]; [tauto|]. right. split; [exact H|congruence].
Qed.

Lemma NoDup_dedupNames (names : list string) : NoDup (dedupNames names).
Proof.
  induction names as [|x names IH]; simpl; constructor.
  - rewrite filter_In, negb_true_iff, String.eqb_neq. tauto.
  - apply NoDup_filter. exact IH.
Qed.

Lemma dedupNames_NoDup (names : list string) :
  NoDup names -> dedupNames names = names.
Proof.
  induction 1 as [|x names Hx Hnd IH]; simpl; [reflexivity|].
  rewrite IH. f_equal. apply filter_id.
  intros y Hy. apply negb_true_iff, String.eqb_neq. congruence.
Qed.

Lemma indexOf_filter_lt (f : string -> bool) (a b : string) (l : list string) :
  f a = true -> f b = true ->
  (indexOf a (filter f l) < indexOf b (filter f l) <-> indexOf a l < indexOf b l).
Proof.
  intros Ha Hb. induction l as [|x l IH]; simpl; [tauto|].
  destruct (f x) eqn:Hfx; simpl.
  - destruct (String.eqb x a), (String.eqb x b); lia.
  - destruct (String.eqb_spec x a) as [->|_]; [congruence|].
    destruct (String.eqb_spec x b) as [->|_]; [congruence|]. lia.
Qed.

Lemma indexOf_dedupNames_lt (a b : string) (names : list string) :
  indexOf a (dedupNames names) < indexOf b (dedupNames names)
  <-> indexOf a names < indexOf b names.
Proof.
  induction names as [|x names IH]; simpl; [tauto|].
  destruct (String.eqb_spec x a) as [Hxa|Hxa];
    destruct (String.eqb_spec x b) as [Hxb|Hxb]; try lia.
  rewrite <- !Nat.succ_lt_mono, <- IH.
  apply indexOf_filter_lt; apply negb_true_iff, String.eqb_neq; congruence.
Qed.

(* --------------------------------------------------------------------- *)
(** *** Cached versions *)
(* --------------------------------------------------------------------- *)

Lemma cachedVersion_absent (cacheSpecs : ZoteroCollectionSpecs) (n : string) :
  (forall s, In s cacheSpecs -> name s <> n) ->
  cachedVersion cacheSpecs n = kNoVersion.
Proof.
  intros H. unfold cachedVersion.
  destruct (find _ cacheSpecs) as [s|] eqn:Hfind; [|reflexivity].
  apply find_some in Hfind. destruct Hfind as [Hin Heq].
  apply String.eqb_eq in Heq. exfalso. exact (H s Hin Heq).
Qed.

Lemma cachedVersion_present (cacheSpecs : ZoteroCollectionSpecs) (n : string) :
  (exists s, In s cacheSpecs /\ name s = n) ->
  exists s, In s cacheSpecs /\ name s = n /\ cachedVersion cacheSpecs n = version s.
Proof.
  intros [s0 [Hin Hname]]. unfold cachedVersion.
  destruct (find _ cacheSpecs) as [s|] eqn:Hfind.
  - apply find_some in Hfind. destruct Hfind as [Hs Heq].
    apply String.eqb_eq in Heq. exists s. auto.
  - exfalso. apply (find_none _ _ Hfind) in Hin.
    apply String.eqb_neq in Hin. exact (Hin Hname).
Qed.

(** A lookup by the name of a real collection never answers the null
    object. *)
Lemma find_by_name_not_empty (cacheSpecs : ZoteroCollectionSpecs)
    (c s : ZoteroCollectionSpec) :
  empty c = false ->
  find (sameName c) cacheSpecs = Some s -> empty s = false.
Proof.
  intros Hc Hfind. apply find_some in Hfind. destruct Hfind as [_ Heq].
  unfold sameName in Heq. apply String.eqb_eq in Heq.
  unfold empty in *. rewrite <- Heq. exact Hc.
Qed.

(* --------------------------------------------------------------------- *)
(** *** getLibrary *)
(* --------------------------------------------------------------------- *)

(** The entry points forward: the caller's handler is invoked once for each
    invocation the source makes of the handler it was given. *)
Lemma getLibrary_forwards {R : Type} (conn : Connection)
    (cacheSpec : ZoteroCollectionSpec) (useCache : bool)
    (handler : ZoteroCollectionsHandler R) :
  exists sent,
    dispatched (getLibrary conn cacheSpec useCache handler)
      = FetchLibrary (libraryId conn) sent /\
    length (completed (getLibrary conn cacheSpec useCache handler))
      = length (source_getLibrary (source conn) (libraryId conn) sent).
Proof.
  eexists. split; [reflexivity|]. simpl. apply length_map.
Qed.

(** C1.  Without the cache, [getLibrary] dispatches to the configured
    source's [getLibrary] a spec with the caller's name and the version
    [kNoVersion], whatever version the caller holds, and the caller's
    handler is invoked on what that source call reports. *)
Theorem getLibrary_without_cache_dispatches_kNoVersion {R : Type}
    (conn : Connection) (cacheSpec : ZoteroCollectionSpec)
    (handler : ZoteroCollectionsHandler R) :
  dispatched (getLibrary conn cacheSpec false handler)
    = FetchLibrary (libraryId conn) (mkSpec (name cacheSpec) kNoVersion) /\
  completed (getLibrary conn cacheSpec false handler)
    = map (invoke (libraryCompletion handler))
          (source_getLibrary (source conn) (libraryId conn)
             (mkSpec (name cacheSpec) kNoVersion)) /\
  (forall held : Z,
      getLibrary conn (mkSpec (name cacheSpec) held) false handler
      = getLibrary conn cacheSpec false handler).
Proof.
  repeat split.
Qed.

(** C4.  When the library fetch fails, that is when the source reports a
    non-success error for the dispatched request, the caller's handler is
    invoked once, with that error, no collection (whatever the source
    passed along) and an empty warning. *)
Theorem getLibrary_failure_surfaces_no_result {R : Type}
    (conn : Connection) (cacheSpec : ZoteroCollectionSpec) (useCache : bool)
    (handler : ZoteroCollectionsHandler R)
    (sent : ZoteroCollectionSpec) (failure : HandlerArgs) :
  dispatched (getLibrary conn cacheSpec useCache handler)
    = FetchLibrary (libraryId conn) sent ->
  source_getLibrary (source conn) (libraryId conn) sent = [failure] ->
  core.isError (arg_error failure) = true ->
  completed (getLibrary conn cacheSpec useCache handler)
    = [handler (arg_error failure) [] ""] /\
  completed (getLibrary conn cacheSpec useCache recordArgs)
    = [mkArgs (arg_error failure) [] ""].
Proof.
  intros Hsent Hsource Herr. simpl in Hsent. injection Hsent as Hsent.
  unfold getLibrary. simpl. rewrite Hsent, Hsource. simpl.
  unfold invoke, libraryCompletion. rewrite Herr. split; reflexivity.
Qed.

(* --------------------------------------------------------------------- *)
(** *** getCollections *)
(* --------------------------------------------------------------------- *)

Lemma getCollections_forwards {R : Type} (conn : Connection)
    (collections : list string) (cacheSpecs : ZoteroCollectionSpecs)
    (useCache : bool) (handler : ZoteroCollectionsHandler R) :
  exists names sent,
    dispatched (getCollections conn collections cacheSpecs useCache handler)
      = FetchCollections (libraryId conn) names sent /\
    length (completed (getCollections conn collections cacheSpecs useCache handler))
      = length (source_getCollections (source conn) (libraryId conn) names sent).
Proof.
  do 2 eexists. split; [reflexivity|]. simpl. apply length_map.
Qed.

(** C5.  [getCollections] calls the configured source with the requested
    names deduplicated, in the order of their first occurrences, and with
    one cache spec per name sent, in the same order.  A name for which the
    caller gave no cache spec is sent with the version [kNoVersion], a name
    for which the caller gave one is sent, with the cache, with a version
    the caller gave for it; and without the cache every name is sent with
    [kNoVersion], whatever cache specs came in.  The caller's handler is
    invoked on what that very call of the source reports. *)
Theorem getCollections_dispatches_deduplicated {R : Type}
    (conn : Connection) (collections : list string)
    (cacheSpecs : ZoteroCollectionSpecs) (useCache : bool)
    (handler : ZoteroCollectionsHandler R) :
  exists (names : list string) (sent : ZoteroCollectionSpecs),
    dispatched (getCollections conn collections cacheSpecs useCache handler)
      = FetchCollections (libraryId conn) names sent /\
    completed (getCollections conn collections cacheSpecs useCache handler)
      = map (invoke (collectionsCompletion names handler))
            (source_getCollections (source conn) (libraryId conn) names sent) /\
    NoDup names /\
    (forall n, In n names <-> In n collections) /\
    (forall a b, indexOf a names < indexOf b names
                 <-> indexOf a collections < indexOf b collections) /\
    map name sent = names /\
    (forall s, In s sent ->
               (forall c, In c cacheSpecs -> name c <> name s) ->
               version s = kNoVersion) /\
    (useCache = true ->
       forall s, In s sent ->
                 (exists c, In c cacheSpecs /\ name c = name s) ->
                 exists c, In c cacheSpecs /\ name c = name s /\
                           version s = version c) /\
    (useCache = false ->
       (forall s, In s sent -> version s = kNoVersion) /\
       getCollections conn collections cacheSpecs false handler
       = getCollections conn collections [] false handler).
Proof.
  exists (dedupNames collections),
         (map (fun n => mkSpec n (cachedVersion (if useCache then cacheSpecs else []) n))
              (dedupNames collections)).
  split; [reflexivity|]. split; [reflexivity|].
  split; [apply NoDup_dedupNames|].
  split; [intros n; apply In_dedupNames|].
  split; [intros a b; apply indexOf_dedupNames_lt|].
  split; [rewrite map_map; simpl; apply map_id|].
  split; [|split].
  - intros s Hs Habsent. apply in_map_iff in Hs. destruct Hs as [n [<- _]].
    simpl in *. apply cachedVersion_absent.
    destruct useCache; [exact Habsent|]. intros c [].
  - intros -> s Hs Hpresent. apply in_map_iff in Hs. destruct Hs as [n [<- _]].
    simpl in *. apply cachedVersion_present. exact Hpresent.
  - intros ->. split; [|reflexivity].
    intros s Hs. apply in_map_iff in Hs. destruct Hs as [n [<- _]]. reflexivity.
Qed.

Lemma countByName_cons (n : string) (c : ZoteroCollection)
    (result : ZoteroCollections) :
  countByName n (c :: result)
  = (if String.eqb (name c) n then 1 else 0) + countByName n result.
Proof.
  unfold countByName. simpl. destruct (String.eqb (name c) n); reflexivity.
Qed.

Lemma countByName_pos (n : string) (result : ZoteroCollections) :
  In n (collectionNames result) <-> 0 < countByName n result.
Proof.
  induction result as [|c result IH]; [unfold countByName; simpl; lia|].
  rewrite countByName_cons. simpl.
  destruct (String.eqb_spec (name c) n) as [Heq|Hneq].
  - split; [lia|]. intros _. left. exact Heq.
  - rewrite IH. simpl. tauto.
Qed.

Lemma exactlyOnePerName_true (requested : list string)
    (result : ZoteroCollections) :
  exactlyOnePerName requested result = true <->
  (forall n, In n requested -> countByName n result = 1) /\
  (forall n, In n (collectionNames result) -> In n requested).
Proof.
  unfold exactlyOnePerName.
  rewrite andb_true_iff, !forallb_forall. split.
  - intros [Hone Hrequested]. split.
    + intros n Hn. apply Nat.eqb_eq. apply Hone. exact Hn.
    + intros n Hn. unfold collectionNames in Hn. apply in_map_iff in Hn.
      destruct Hn as [c [<- Hc]].
      specialize (Hrequested c Hc). apply existsb_exists in Hrequested.
      destruct Hrequested as [m [Hm Heq]]. apply String.eqb_eq in Heq.
      rewrite Heq. exact Hm.
  - intros [Hone Hrequested]. split.
    + intros n Hn. apply Nat.eqb_eq. apply Hone. exact Hn.
    + intros c Hc. apply existsb_exists. exists (name c). split.
      * apply Hrequested. unfold collectionNames.
        apply (in_map (fun c : ZoteroCollection => name c)). exact Hc.
      * apply String.eqb_refl.
Qed.

Lemma NoDup_names_of_counts (result : ZoteroCollections) :
  (forall n, In n (collectionNames result) -> countByName n result = 1) ->
  NoDup (collectionNames result).
Proof.
  induction result as [|c result IH]; intros H; simpl; constructor.
  - intros Hin. apply countByName_pos in Hin.
    specialize (H (name c) (or_introl eq_refl)).
    rewrite countByName_cons, String.eqb_refl in H. lia.
  - apply IH. intros n Hn.
    assert (Hpos := proj1 (countByName_pos n result) Hn).
    specialize (H n (or_intror Hn)). rewrite countByName_cons in H.
    destruct (String.eqb (name c) n); lia.
Qed.

(** A result that passes the check names the requested collections, each
    once, in some order. *)
Lemma exactlyOnePerName_Permutation (requested : list string)
    (result : ZoteroCollections) :
  NoDup requested ->
  exactlyOnePerName requested result = true ->
  Permutation (collectionNames result) requested.
Proof.
  intros Hnd Hcheck. apply exactlyOnePerName_true in Hcheck.
  destruct Hcheck as [Hone Hrequested].
  apply NoDup_Permutation; [|exact Hnd|].
  - apply NoDup_names_of_counts. intros n Hn. apply Hone, Hrequested, Hn.
  - intros n. split; [apply Hrequested|].
    intros Hn. apply countByName_pos. rewrite (Hone n Hn). lia.
Qed.

(** What the caller's handler receives from [getCollections]: a failure
    with nothing, or a result that passed the check. *)
Lemma getCollections_completed (conn : Connection) (collections : list string)
    (cacheSpecs : ZoteroCollectionSpecs) (useCache : bool) (a : HandlerArgs) :
  In a (completed (getCollections conn collections cacheSpecs useCache recordArgs)) ->
  (core.isError (arg_error a) = true /\ arg_collections a = [] /\ arg_warning a = "")
  \/ (arg_error a = core.Success /\
      exactlyOnePerName (dedupNames collections) (arg_collections a) = true).
Proof.
  simpl. intros Hin. apply in_map_iff in Hin. destruct Hin as [a0 [<- _]].
  unfold invoke, collectionsCompletion, recordArgs.
  destruct (core.isError (arg_error a0)) eqn:Herr; simpl; [left; auto|].
  destruct (exactlyOnePerName _ _) eqn:Hcheck; simpl; [right|left]; auto.
Qed.

(** C2.  For a duplicate-free list of requested names (empty or not), every
    successful completion of [getCollections] delivers collections whose
    names are the requested names, each exactly once, in some order: none
    is extra and none is missing.  And when the source reports success with
    a result that lacks a requested name, the call completes with a
    non-success error and no collection at all. *)
Theorem getCollections_success_is_complete (conn : Connection)
    (collections : list string) (cacheSpecs : ZoteroCollectionSpecs)
    (useCache : bool) :
  NoDup collections ->
  (forall a,
      In a (completed (getCollections conn collections cacheSpecs useCache recordArgs)) ->
      arg_error a = core.Success ->
      Permutation (collectionNames (arg_collections a)) collections /\
      (forall n, In n (collectionNames (arg_collections a)) <-> In n collections) /\
      (forall n, In n collections -> countByName n (arg_collections a) = 1)) /\
  (forall sent reported n,
      dispatched (getCollections conn collections cacheSpecs useCache recordArgs)
        = FetchCollections (libraryId conn) collections sent ->
      source_getCollections (source conn) (libraryId conn) collections sent
        = [reported] ->
      core.isError (arg_error reported) = false ->
      In n collections ->
      ~ In n (collectionNames (arg_collections reported)) ->
      exists error,
        core.isError error = true /\
        completed (getCollections conn collections cacheSpecs useCache recordArgs)
          = [mkArgs error [] ""]).
Proof.
  intros Hnd. split.
  - intros a Hin Hok. apply getCollections_completed in Hin.
    destruct Hin as [[Herr _]|[_ Hcheck]]; [rewrite Hok in Herr; discriminate|].
    rewrite (dedupNames_NoDup _ Hnd) in Hcheck.
    assert (Hperm := exactlyOnePerName_Permutation _ _ Hnd Hcheck).
    apply exactlyOnePerName_true in Hcheck. destruct Hcheck as [Hone _].
    split; [exact Hperm|]. split; [|exact Hone].
    intros n. split; intros Hn.
    + apply (Permutation_in _ Hperm). exact Hn.
    + apply (Permutation_in _ (Permutation_sym Hperm)). exact Hn.
  - intros sent reported n Hsent Hsource Hok Hn Hmissing.
    exists contractViolation. split; [reflexivity|].
    unfold getCollections in *. simpl in *.
    rewrite (dedupNames_NoDup _ Hnd) in *.
    injection Hsent as Hsent. rewrite Hsent, Hsource. simpl.
    unfold invoke, collectionsCompletion, recordArgs. rewrite Hok.
    destruct (exactlyOnePerName _ _) eqn:Hcheck; [|reflexivity].
    exfalso. apply exactlyOnePerName_true in Hcheck.
    destruct Hcheck as [Hone _]. specialize (Hone n Hn).
    apply Hmissing, countByName_pos. lia.
Qed.

(* --------------------------------------------------------------------- *)
(** *** How the constructors and [empty] work together *)
(* --------------------------------------------------------------------- *)

(** X1.  Going from a collection to its spec part and back through
    [ZoteroCollection(const ZoteroCollectionSpec&)] keeps the name and the
    version and loses the items: the collection comes back unchanged
    exactly when it had no item.  So the conversion from specs is
    injective, and the collections it reaches are those without items. *)
Theorem collection_spec_round_trip (c : ZoteroCollection) :
  spec (newCollection (CollectionOfSpec (spec c))) = spec c /\
  (newCollection (CollectionOfSpec (spec c)) = c <-> items c = []) /\
  (forall s1 s2 : ZoteroCollectionSpec,
      newCollection (CollectionOfSpec s1) = newCollection (CollectionOfSpec s2)
      <-> s1 = s2).
Proof.
  destruct c as [[n v] its]. simpl. split; [reflexivity|]. split.
  - unfold json.emptyArray. split; intros H.
    + injection H as H. symmetry. exact H.
    + rewrite H. reflexivity.
  - intros [n1 v1] [n2 v2]. simpl. split; intros H.
    + injection H as Hn Hv. subst. reflexivity.
    + injection H as Hn Hv. subst. reflexivity.
Qed.

(** X2.  The default arguments are indistinguishable from the same values
    passed explicitly: a spec built with an explicit version is the spec
    built from the name alone exactly when that version is [kNoVersion];
    the spec built with no argument is the one named by the empty string;
    and the constructors of the collection agree with those of the spec:
    [ZoteroCollection()] is [ZoteroCollection("")] and the collection of
    the default spec, [ZoteroCollection(colName)] is the collection of the
    spec built from [colName] alone. *)
Theorem default_arguments_are_the_sentinels :
  (forall n v, newSpec (SpecVersioned n v) = newSpec (SpecNamed n)
               <-> v = kNoVersion) /\
  newSpec SpecDefault = newSpec (SpecNamed "") /\
  newCollection CollectionDefault = newCollection (CollectionNamed "") /\
  newCollection CollectionDefault
    = newCollection (CollectionOfSpec (newSpec SpecDefault)) /\
  (forall n, newCollection (CollectionNamed n)
             = newCollection (CollectionOfSpec (newSpec (SpecNamed n)))).
Proof.
  split; [|repeat split].
  intros n v. simpl. split; intros H.
  - injection H as H. exact H.
  - rewrite H. reflexivity.
Qed.

(** X3.  [empty] looks at the name only.  Whatever its version and items,
    a collection is empty exactly when its name is the empty string; so a
    collection built from a name is empty only for the empty name, a
    collection built from a spec is empty exactly when the spec is, the
    default collection is empty, and a spec that still has the version
    [kNoVersion] is not empty once it has a name. *)
Theorem empty_ignores_version_and_items :
  (forall n v its, empty (mkCollection (mkSpec n v) its) = true <-> n = "") /\
  (forall n, empty (newCollection (CollectionNamed n)) = true <-> n = "") /\
  (forall s, empty (newCollection (CollectionOfSpec s)) = empty s) /\
  empty (newCollection CollectionDefault) = true /\
  (forall n, n <> "" -> empty (newSpec (SpecNamed n)) = false).
Proof.
  split; [|split; [|split; [|split]]].
  - intros n v its. apply string_empty_spec.
  - intros n. apply string_empty_spec.
  - intros [n v]. reflexivity.
  - reflexivity.
  - intros n Hn. apply string_empty_false. exact Hn.
Qed.

End Collections.

(* --------------------------------------------------------------------- *)
(** *** Scenarios *)
(* --------------------------------------------------------------------- *)

Example dedupNames_keeps_first_occurrences :
  dedupNames ["b"; "a"; "b"; "c"; "a"] = ["b"; "a"; "c"].
Proof. reflexivity. Qed.

(** Scenario A of the specification. *)
Example scenario_two_collections :
  getCollections noVersion desktop ["Refs"; "Drafts"] [] true recordArgs
  = mkCall (FetchCollections "local" ["Refs"; "Drafts"]
              [mkSpec "Refs" noVersion; mkSpec "Drafts" noVersion])
           [mkArgs core.Success [drafts; refs] ""].
Proof. reflexivity. Qed.

Example scenario_duplicate_request :
  getCollections noVersion desktop ["Refs"; "Drafts"; "Refs"] [mkSpec "Refs" 3]
    false recordArgs
  = mkCall (FetchCollections "local" ["Refs"; "Drafts"]
              [mkSpec "Refs" noVersion; mkSpec "Drafts" noVersion])
           [mkArgs core.Success [drafts; refs] ""].
Proof. reflexivity. Qed.

Example scenario_missing_name :
  completed (getCollections noVersion desktop ["Refs"; "Notes"] [] true recordArgs)
  = [mkArgs contractViolation [] ""].
Proof. reflexivity. Qed.

(** Scenario B of the specification: what the source is asked. *)
Example scenario_cached_collection :
  dispatched (getCollections noVersion desktop ["Drafts"; "Refs"; "Drafts"]
                [mkSpec "Refs" 3; mkSpec "Notes" 8] true recordArgs)
  = FetchCollections "local" ["Drafts"; "Refs"]
      [mkSpec "Drafts" noVersion; mkSpec "Refs" 3].
Proof. reflexivity. Qed.

(** Scenario C of the specification. *)
Example scenario_failing_library :
  getLibrary noVersion offline (mkSpec "My Library" noVersion) false recordArgs
  = mkCall (FetchLibrary "local" (mkSpec "My Library" noVersion))
           [mkArgs unreachable [] ""].
Proof. reflexivity. Qed.

Example scenario_library_without_cache :
  dispatched (getLibrary noVersion desktop (mkSpec "My Library" 7) false recordArgs)
  = FetchLibrary "local" (mkSpec "My Library" noVersion).
Proof. reflexivity. Qed.

Lemma empty_iff_no_collection_witness :
  empty (newSpec noVersion SpecDefault) = true /\
  sameName (newSpec noVersion SpecDefault) refs = false /\
  sameName refs (newSpec noVersion SpecDefault) = false.
Proof.
  split; [reflexivity|].
  apply (proj2 (proj2 (empty_iff_no_collection (newSpec noVersion SpecDefault))) refs);
    reflexivity.
Defined.

Lemma getLibrary_failure_surfaces_no_result_witness :
  core.isError unreachable = true /\
  completed (getLibrary noVersion offline (mkSpec "My Library" 7) false recordArgs)
  = [mkArgs unreachable [] ""].
Proof.
  split; [reflexivity|].
  apply (getLibrary_failure_surfaces_no_result noVersion offline
           (mkSpec "My Library" 7) false recordArgs
           (mkSpec "My Library" noVersion)
           (mkArgs unreachable [drafts] "incomplete"));
    reflexivity.
Defined.

Lemma getCollections_success_is_complete_witness :
  NoDup ["Refs"; "Drafts"] /\
  Permutation (collectionNames [drafts; refs]) ["Refs"; "Drafts"].
Proof.
  assert (Hnd : NoDup ["Refs"; "Drafts"]).
  { repeat constructor; simpl; intros H; repeat destruct H as [H|H];
      try discriminate H; exact H. }
  split; [exact Hnd|].
  apply (proj1 (getCollections_success_is_complete noVersion desktop
                  ["Refs"; "Drafts"] [] true Hnd)
           (mkArgs core.Success [drafts; refs] ""));
    [left|]; reflexivity.
Defined.

End zotero.

(* ===================================================================== *)
(** ** rstudio::session::modules::prefs *)
(* ===================================================================== *)

Module prefs.

Section DefaultLayer.

(** What [UserPrefsDefaultLayer.cpp] uses and does not define:
    [core::FilePath] with [FilePath::complete], the session options with
    [rResourcesPath()], the constant [kUserPrefsSchemaFile] and the
    inherited [loadPrefsFromSchema], which fills the layer from a schema
    file and answers an [Error].  [Session] is the state of the session
    process, the layer included. *)
Variable FilePath : Type.
Variable complete : FilePath -> string -> FilePath.
Variable Options : Type.
Variable rResourcesPath : Options -> FilePath.
Variable kUserPrefsSchemaFile : string.
Variable Session : Type.
Variable options : Session -> Options.
Variable loadPrefsFromSchema : FilePath -> state Session core.Error.

(** [core::Error UserPrefsDefaultLayer::readPrefs()
     {
        return loadPrefsFromSchema(
           options().rResourcesPath().complete("schema").complete(kUserPrefsSchemaFile));
     }] *)
Definition readPrefs : state Session core.Error :=
  opts <- gets options ;;
  loadPrefsFromSchema
    (complete (complete (rResourcesPath opts) "schema") kUserPrefsSchemaFile).

(** [core::Error UserPrefsDefaultLayer::validatePrefs()
     {
        // No need to validate defaults; they ship in the box and are validated at build time.
        return Success();
     }] *)
Definition validatePrefs : state Session core.Error :=
  ret core.Success.

(** C8.  In every state [validatePrefs] answers [Success] and leaves the
    state as it is: it does no work (it depends neither on the loader nor
    on the options).  [readPrefs] is one call of [loadPrefsFromSchema] on
    the path made of the R resources path, ["schema"] and the schema file
    name of the user preferences: it has that call's answer and that
    call's final state. *)
Theorem validatePrefs_succeeds_readPrefs_loads_schema :
  (forall st : Session, runState validatePrefs st = (core.Success, st)) /\
  (forall st : Session,
      runState readPrefs st
      = runState
          (loadPrefsFromSchema
             (complete (complete (rResourcesPath (options st)) "schema")
                kUserPrefsSchemaFile))
          st).
Proof.
  split; intros st; reflexivity.
Qed.

(** X4.  Validation does not look at what reading did: run after
    [readPrefs] it answers [Success] whatever the loader answered, and
    leaves the state the loader left; run before [readPrefs] it changes
    nothing of what [readPrefs] does. *)
Theorem validatePrefs_ignores_readPrefs (st : Session) :
  runState (readPrefs ;; validatePrefs) st
    = (core.Success, snd (runState readPrefs st)) /\
  runState (validatePrefs ;; readPrefs) st = runState readPrefs st /\
  runState (validatePrefs ;; validatePrefs) st = runState validatePrefs st.
Proof.
  split; [|split; reflexivity].
  unfold readPrefs, validatePrefs. simpl.
  destruct (runState (loadPrefsFromSchema _) st) as [e st']. reflexivity.
Qed.

End DefaultLayer.

(** A session whose paths are strings and whose loader knows one installed
    schema file: loading any other path fails and loads nothing. *)
Record SampleSession : Type := mkSampleSession {
  resources : string;
  loaded : option string
}.

Definition sampleLoad (installed : string) (path : string)
    : state SampleSession core.Error :=
  st <- get ;;
  if String.eqb path installed
  then put (mkSampleSession (resources st) (Some path)) ;; ret core.Success
  else ret (core.Failure core.PreferencesFailure "schema not found").

Definition sampleReadPrefs (installed : string) : state SampleSession core.Error :=
  readPrefs string (fun p s => p ++ "/" ++ s) string (fun o => o)
    "user-prefs-schema.json" SampleSession resources (sampleLoad installed).

Example readPrefs_loads_the_installed_schema :
  runState (sampleReadPrefs "/opt/rstudio/resources/schema/user-prefs-schema.json")
           (mkSampleSession "/opt/rstudio/resources" None)
  = (core.Success,
     mkSampleSession "/opt/rstudio/resources"
       (Some "/opt/rstudio/resources/schema/user-prefs-schema.json")).
Proof. reflexivity. Qed.

Example validatePrefs_succeeds_after_a_failed_read :
  runState (sampleReadPrefs "/elsewhere/user-prefs-schema.json")
           (mkSampleSession "/opt/rstudio/resources" None)
  = (core.Failure core.PreferencesFailure "schema not found",
     mkSampleSession "/opt/rstudio/resources" None) /\
  runState (sampleReadPrefs "/elsewhere/user-prefs-schema.json" ;;
            validatePrefs SampleSession)
           (mkSampleSession "/opt/rstudio/resources" None)
  = (core.Success, mkSampleSession "/opt/rstudio/resources" None).
Proof. split; reflexivity. Qed.

End prefs.
